(** * Waiting-list simulator (GaryWhite72/Simulator): shallow embedding

    The repository holds four Streamlit scripts.  Three of them
    (comm_paeds_streamlit_final.py, comm_paeds_streamlit_branch_branch.py,
    LCH_WL_Simulator_Branch6.py) run the same floor-at-zero recurrence over
    the rows of a spreadsheet; LCH_WLSimulator_Main.py forecasts future weeks
    with [simulate_future], which draws demand and capacity from the 65th
    percentile of the history, applies capacity initiatives and waiting-list
    resets.

    Modelling choices.
    - A date (pandas Timestamp at midnight, or a [datetime.date]) is a day
      number in [Z]; [pd.Timedelta(weeks=k)] adds [7 * k].
    - Counts are integers ([Z]).  A spreadsheet cell that may be missing
      (NaN) is an [option Z]; a float produced by [quantile] is an exact
      rational ([Q]), NaN being [None].
    - A Python exception is a value of [exn] carrying the class name; code
      that may raise returns [result A = exn + A]. *)

From Stdlib Require Import String DecimalString.
From Stdlib Require Import ZArith QArith Qround Qabs List Bool Lia Lqa.
From Stdlib Require Import Permutation Sorted.
Import ListNotations.
Open Scope Z_scope.

(** ** Python and pandas primitives used by the scripts *)

Module Py.

Inductive exn : Type := PyExn (cls : string).

Definition IndexError : exn := PyExn "IndexError"%string.
Definition ValueError : exn := PyExn "ValueError"%string.

Definition result (A : Type) : Type := (exn + A)%type.

Definition ret {A : Type} (a : A) : result A := inr a.
Definition raise {A : Type} (e : exn) : result A := inl e.

Definition bind {A B : Type} (c : result A) (k : A -> result B) : result B :=
  match c with
  | inl e => inl e
  | inr a => k a
  end.

(** [s.iloc[-1]]: the last row; IndexError on an empty frame. *)
Definition iloc_last {A : Type} (rows : list A) : result A :=
  match rev rows with
  | [] => raise IndexError
  | r :: _ => ret r
  end.

(** [s.dropna()]: the present values, in order. *)
Fixpoint dropna (col : list (option Z)) : list Z :=
  match col with
  | [] => []
  | Some v :: rest => v :: dropna rest
  | None :: rest => dropna rest
  end.

Fixpoint insert_sorted (x : Z) (l : list Z) : list Z :=
  match l with
  | [] => [x]
  | y :: rest => if x <=? y then x :: l else y :: insert_sorted x rest
  end.

Fixpoint sort (l : list Z) : list Z :=
  match l with
  | [] => []
  | x :: rest => insert_sorted x (sort rest)
  end.

(** [s.quantile(q)] with pandas' default linear interpolation: on the
    sorted values [v], at the virtual index [h = q * (n - 1)], the result is
    [v[lo] + (v[lo+1] - v[lo]) * (h - lo)] with [lo = floor h] (the upper
    index clipped to [n - 1]).  An empty series gives NaN. *)
Definition quantile (xs : list Z) (q : Q) : option Q :=
  match xs with
  | [] => None
  | _ :: _ =>
      let v := sort xs in
      let n := Z.of_nat (length xs) in
      let h := (q * inject_Z (n - 1))%Q in
      let lo := Qfloor h in
      let hi := Z.min (lo + 1) (n - 1) in
      let g := (h - inject_Z lo)%Q in
      let a := nth (Z.to_nat lo) v 0 in
      let b := nth (Z.to_nat hi) v 0 in
      Some (inject_Z a + inject_Z (b - a) * g)%Q
  end.

(** [int(x)] on a float: truncation toward zero; ValueError on NaN. *)
Definition int_ (x : option Q) : result Z :=
  match x with
  | None => raise ValueError
  | Some q => ret (Z.quot (Qnum q) (Zpos (Qden q)))
  end.

(** [max(0, wl - c)] where [c] may be NaN: [wl - nan] is NaN and
    [max(0, nan)] keeps its first argument, because [nan > 0] is false. *)
Definition max0_sub (wl : Z) (c : option Z) : Z :=
  match c with
  | Some c => Z.max 0 (wl - c)
  | None => 0
  end.

End Py.

Import Py.

Notation "x <- c ;; k" := (bind c (fun x => k))
  (at level 61, c at next level, right associativity).

Definition q65 : Q := 65 # 100.

Definition sumZ (l : list Z) : Z := fold_right Z.add 0 l.

(** [int(col.dropna().quantile(0.65))], the expression behind
    [clock_start_65] and [clock_stop_65]. *)
Definition percentile_65 (col : list (option Z)) : result Z :=
  int_ (quantile (dropna col) q65).

(** ** The recurrence loop shared by the three spreadsheet scripts

    [waiting_list = [initial_waiting_list]], then for each
    [week in range(weeks_to_simulate)] the value
    [max(waiting_list[-1] + (demand - capacity), 0)] is appended; the
    simulated column is [waiting_list[1:]]. *)

Definition loop_body (weekly_demand weekly_capacity : list Z)
    (waiting_list : list Z) (week : nat) : list Z :=
  let demand := nth week weekly_demand 0 in
  let capacity := nth week weekly_capacity 0 in
  let net_change := demand - capacity in
  let new_waiting_list := Z.max (last waiting_list 0 + net_change) 0 in
  waiting_list ++ [new_waiting_list].

Definition run_loop (weekly_demand weekly_capacity : list Z)
    (initial_waiting_list : Z) (weeks_to_simulate : nat) : list Z :=
  fold_left (loop_body weekly_demand weekly_capacity)
            (seq 0 weeks_to_simulate) [initial_waiting_list].

Definition Simulated_Waiting_List (weekly_demand weekly_capacity : list Z)
    (initial_waiting_list : Z) (weeks_to_simulate : nat) : list Z :=
  tl (run_loop weekly_demand weekly_capacity initial_waiting_list
               weeks_to_simulate).

(** [df.loc[df['Week'] >= start, col] += boost] for each event in turn,
    starting from a column of zeros. *)
Definition apply_events (weeks : list Z) (events : list (Z * Z)) : list Z :=
  fold_left
    (fun col ev =>
       map (fun wa => if fst ev <=? fst wa then snd wa + snd ev else snd wa)
           (combine weeks col))
    events (repeat 0 (length weeks)).

(** *** comm_paeds_streamlit_final.py *)
Module Final.

Record Row : Type := { Demand : Z; Capacity : Z }.

Definition simulate (df : list Row)
    (initial_waiting_list demand_adjustment capacity_adjustment : Z) : list Z :=
  let daily_demand := map (fun r => Demand r + demand_adjustment) df in
  let daily_capacity := map (fun r => Capacity r + capacity_adjustment) df in
  let days_to_simulate := length df in
  Simulated_Waiting_List daily_demand daily_capacity initial_waiting_list
                         days_to_simulate.

End Final.

(** *** comm_paeds_streamlit_branch_branch.py *)
Module Branch.

Record Row : Type := { Week : Z; Starts : Z; Stops : Z }.

Definition simulate (df : list Row)
    (initial_waiting_list demand_adjustment capacity_adjustment : Z)
    (locum_events : list (Z * Z)) : list Z :=
  let Locum_Capacity_Adjustment := apply_events (map Week df) locum_events in
  let weekly_demand := map (fun r => Starts r + demand_adjustment) df in
  let weekly_capacity :=
    map (fun ra => Stops (fst ra) + capacity_adjustment + snd ra)
        (combine df Locum_Capacity_Adjustment) in
  let weeks_to_simulate := length df in
  Simulated_Waiting_List weekly_demand weekly_capacity initial_waiting_list
                         weeks_to_simulate.

End Branch.

(** *** LCH_WL_Simulator_Branch6.py *)
Module Branch6.

Record Row : Type := { Week : Z; Starts : Z; Stops : Z }.

Definition simulate (df : list Row) (initial_waiting_list : Z)
    (initiative_events : list (Z * Z)) : list Z :=
  let initiative_Capacity_Adjustment :=
    apply_events (map Week df) initiative_events in
  let weekly_demand := map Starts df in
  let weekly_capacity :=
    map (fun ra => Stops (fst ra) + snd ra)
        (combine df initiative_Capacity_Adjustment) in
  let weeks_to_simulate := length df in
  Simulated_Waiting_List weekly_demand weekly_capacity initial_waiting_list
                         weeks_to_simulate.

(** The "Do Nothing" trajectory: the same loop on [df['Stops']] alone. *)
Definition simulate_no_initiatives (df : list Row)
    (initial_waiting_list : Z) : list Z :=
  let weekly_demand := map Starts df in
  let weekly_capacity_no_initiatives := map Stops df in
  Simulated_Waiting_List weekly_demand weekly_capacity_no_initiatives
                         initial_waiting_list (length df).

End Branch6.

(** *** LCH_WLSimulator_Main.py *)
Module Main.

(** One row of [service_df] (the rows of the selected Entity, sorted by
    WeekCommencing).  [ClockStarts] and [ClockStops] are the columns read at
    module level; [ClockStarts_52_weeks] and [ClockStops_52_weeks] are the
    columns "ClockStarts_52+_weeks" and "ClockStops_52+_weeks" read by
    [simulate_future].  The clock columns may hold NaN (the code drops it
    before taking a quantile); [Over52Weeks] is taken to be present. *)
Record Row : Type := {
  WeekCommencing : Z;
  Over52Weeks : Z;
  ClockStarts : option Z;
  ClockStops : option Z;
  ClockStarts_52_weeks : option Z;
  ClockStops_52_weeks : option Z
}.

(** An entry of [initiatives]; the key ["end"] is present only when an end
    date was set.  (The ["color"] key is used by the chart alone.) *)
Record Initiative : Type := {
  name : string;
  start : Z;
  change : Z;
  end_ : option Z
}.

(** A sidebar reset: [reset_date_k] and [reset_value_k] are set together
    when the reset is enabled and are both [None] otherwise. *)
Record Reset : Type := { reset_date : Z; reset_value : Z }.

(** [item["start"] <= week and ("end" not in item or week <= item["end"])],
    the test of lines 134 and 279. *)
Definition is_active (item : Initiative) (week : Z) : bool :=
  (start item <=? week) &&
  match end_ item with
  | None => true
  | Some e => week <=? e
  end.

(** Lines 132-135: start from [base] and add the change of each active
    initiative, in list order. *)
Definition add_initiatives (initiatives : list Initiative) (week : Z)
    (base : Z) : Z :=
  fold_left
    (fun adjusted_clock_stop item =>
       if is_active item week then adjusted_clock_stop + change item
       else adjusted_clock_stop)
    initiatives base.

(** [f"{change:+}"] *)
Definition format_plus (z : Z) : string :=
  let digits := DecimalString.NilZero.string_of_int (Z.to_int z) in
  if z <? 0 then digits else String.append "+" digits.

Fixpoint join (sep : string) (l : list string) : string :=
  match l with
  | [] => EmptyString
  | [x] => x
  | x :: rest => String.append x (String.append sep (join sep rest))
  end.

Section Globals.

(** Module-level state read inside the functions. *)
Variable today : Z.
Variables reset_1 reset_2 : option Reset.

Definition historic (service_df : list Row) : list Row :=
  filter (fun r => WeekCommencing r <? today) service_df.

(** Lines 57-58. *)
Definition clock_start_65_historic (service_df : list Row) : result Z :=
  percentile_65 (map ClockStarts (historic service_df)).

Definition clock_stop_65_historic (service_df : list Row) : result Z :=
  percentile_65 (map ClockStops (historic service_df)).

Definition next_week_of (start_date : Z) (i : nat) : Z :=
  start_date + 7 * (Z.of_nat i + 1).

Definition extended_historic (df : list Row) (next_week : Z) : list Row :=
  filter (fun r => WeekCommencing r <? next_week) df.

Definition clock_start_65 (df : list Row) (next_week : Z) : result Z :=
  percentile_65 (map ClockStarts_52_weeks (extended_historic df next_week)).

Definition clock_stop_65 (df : list Row) (next_week : Z) : result Z :=
  percentile_65 (map ClockStops_52_weeks (extended_historic df next_week)).

(** Lines 132-138: the capacity subtracted in week [i]. *)
Definition adjusted_clock_stop (last_actual_row : Row)
    (initiatives : list Initiative) (i : nat) (next_week : Z)
    (clock_stop_65 : Z) : option Z :=
  let adjusted_clock_stop := add_initiatives initiatives next_week clock_stop_65 in
  if (i =? 0)%nat then ClockStops_52_weeks last_actual_row
  else Some adjusted_clock_stop.

Definition apply_reset (r : option Reset) (next_week wl : Z) : Z :=
  match r with
  | Some r => if next_week =? reset_date r then reset_value r else wl
  | None => wl
  end.

(** Lines 140-144. *)
Definition apply_resets (next_week wl : Z) : Z :=
  let wl := apply_reset reset_1 next_week wl in
  apply_reset reset_2 next_week wl.

(** One iteration of the loop of lines 125-158: from the running value
    [wl] to the appended row [(WeekCommencing, Simulated_WaitingList)]. *)
Definition week_body (df : list Row) (last_actual_row : Row)
    (weeks_ahead : nat) (initiatives : list Initiative)
    (wl : Z) (i : nat) : result (Z * Z) :=
  let start_date := WeekCommencing last_actual_row in
  let next_week := next_week_of start_date i in
  clock_start_65 <- clock_start_65 df next_week ;;
  clock_stop_65 <- clock_stop_65 df next_week ;;
  let adjusted_clock_stop :=
    adjusted_clock_stop last_actual_row initiatives i next_week clock_stop_65 in
  let wl := apply_resets next_week wl in
  let wl := max0_sub wl adjusted_clock_stop in
  let wl_next :=
    if Z.of_nat i <? Z.of_nat weeks_ahead - 1 then wl + clock_start_65
    else wl in
  ret (next_week, wl_next).

(** The [for] loop: [wl] is threaded from one iteration to the next and
    the rows are collected in order; an exception aborts the run. *)
Fixpoint loop (body : Z -> nat -> result (Z * Z)) (range : list nat)
    (wl : Z) : result (list (Z * Z)) :=
  match range with
  | [] => ret []
  | i :: rest =>
      row <- body wl i ;;
      future_data <- loop body rest (snd row) ;;
      ret (row :: future_data)
  end.

Definition simulate_future (df : list Row) (weeks_ahead : nat)
    (initiatives : list Initiative) : result (list (Z * Z)) :=
  last_actual_row <-
    iloc_last (filter (fun r => WeekCommencing r <? today) df) ;;
  let wl := Over52Weeks last_actual_row in
  loop (week_body df last_actual_row weeks_ahead initiatives)
       (seq 0 weeks_ahead) wl.


End Globals.

(** The running value on entry to iteration [i] of a run that returned
    [future_data]: the initial value, then the value appended last. *)
Definition wl_before (initial : Z) (future_data : list (Z * Z)) (i : nat) : Z :=
  match i with
  | O => initial
  | S k => snd (nth k future_data (0, 0))
  end.

(** Lines 276-282, for a given [initiatives] list. *)
Definition get_active_initiatives (initiatives : list Initiative)
    (week : Z) : string :=
  let active :=
    map (fun i => String.append (name i)
                    (String.append " (" (String.append (format_plus (change i)) ")")))
        (filter (fun i => is_active i week) initiatives) in
  join "; " active.

(** A row whose four clock columns hold the same pair of values. *)
Definition row (week wl starts stops : Z) : Row :=
  {| WeekCommencing := week; Over52Weeks := wl;
     ClockStarts := Some starts; ClockStops := Some stops;
     ClockStarts_52_weeks := Some starts; ClockStops_52_weeks := Some stops |}.

End Main.

(** ** Sample frames and events used below *)

Import Main.

(** ** Chart markers and sidebar set-up *)

Definition KeyError : exn := PyExn "KeyError"%string.

(** Branch6 lines 216-221 and branch_branch lines 164-169: an event with a
    positive boost is marked at the first row of
    [df[df['Week'] >= date]], with that row's simulated value; no marker
    when the boost is 0 or no row qualifies. *)
Definition event_marker (weeks simulated : list Z) (ev : Z * Z)
    : option (Z * Z) :=
  if 0 <? snd ev then
    match filter (fun row => fst ev <=? fst row) (combine weeks simulated) with
    | [] => None
    | row :: _ => Some row
    end
  else None.

(** [s.idxmin()]: the position of the first occurrence of the minimum. *)
Fixpoint idxmin (l : list Z) : option nat :=
  match l with
  | [] => None
  | x :: rest =>
      match idxmin rest with
      | Some k => if nth k rest 0 <? x then Some (S k) else Some O
      | None => Some O
      end
  end.

(** Main lines 210-213: the forecast row closest in time to the start of
    an initiative.  A frame built from no rows has no "WeekCommencing"
    column, hence the KeyError. *)
Definition initiative_marker (future : list (Z * Z)) (item : Initiative)
    : result (Z * Z) :=
  match future with
  | [] => raise KeyError
  | _ :: _ =>
      let date_diff := map (fun r => Z.abs (fst r - start item)) future in
      match idxmin date_diff with
      | Some k => ret (nth k future (0, 0))
      | None => raise ValueError
      end
  end.

(** Main lines 225-232: a reset is marked at the first forecast row whose
    date is the reset's; the marker carries the row and the reset's value
    (shown as "New Value"). *)
Definition reset_marker (future : list (Z * Z)) (r : option Reset)
    : option (Z * Z * Z) :=
  match r with
  | None => None
  | Some r =>
      match filter (fun row => fst row =? reset_date r) future with
      | [] => None
      | point :: _ => Some (fst point, snd point, reset_value r)
      end
  end.


(** The value on which week [k] builds: the initial value, then the value
    of the week before. *)
Definition value_before (init : Z) (simulated : list Z) (k : nat) : Z :=
  match k with
  | O => init
  | S j => nth j simulated 0
  end.


(** A history of three weekly rows, all with 10 clock starts and 15 clock
    stops, the last one (week 14) with 100 patients over 52 weeks. *)
Definition three_week_history : list Row :=
  [row 0 90 10 15; row 7 95 10 15; row 14 100 10 15].


(** An initiative active in week 21 only. *)
Definition one_week_clinic : Initiative :=
  {| name := "Extra Clinic"; start := 21; change := 5; end_ := Some 21 |}.

(** A frame whose clock stops before week 42 are 20, 10, NaN, 10, 20, 10
    (weeks 0 to 35); the rows of weeks 42 and 49 hold other values. *)
Definition quantile_history : list Row :=
  [ row 0 0 0 20; row 7 0 0 10;
    {| WeekCommencing := 14; Over52Weeks := 0;
       ClockStarts := None; ClockStops := None;
       ClockStarts_52_weeks := None; ClockStops_52_weeks := None |};
    row 21 0 0 10; row 28 0 0 20; row 35 0 0 10;
    row 42 0 0 1000; row 49 0 0 2000 ].



(** * Properties *)

(** ** Sorting and the quantile *)

Section Quantile.

Lemma insert_sorted_perm (x : Z) (l : list Z) :
  Permutation (insert_sorted x l) (x :: l).
Proof.
  induction l as [|y l IH]; simpl.
  - reflexivity.
  - destruct (x <=? y).
    + reflexivity.
    + rewrite IH. apply perm_swap.
Qed.

Lemma sort_perm (l : list Z) : Permutation (sort l) l.
Proof.
  induction l as [|x l IH]; simpl.
  - constructor.
  - rewrite insert_sorted_perm. now constructor.
Qed.

Lemma insert_sorted_sorted (x : Z) (l : list Z) :
  Sorted Z.le l -> Sorted Z.le (insert_sorted x l).
Proof.
  induction l as [|y l IH]; simpl; intros Hs.
  - repeat constructor.
  - destruct (x <=? y) eqn:E.
    + constructor; [assumption|]. constructor. lia.
    + inversion Hs as [|? ? Hs' Hhd]; subst.
      constructor; [now apply IH|].
      destruct l as [|z l]; simpl.
      * constructor. lia.
      * destruct (x <=? z); constructor; try lia.
        inversion Hhd; subst; assumption.
Qed.

Lemma sort_sorted (l : list Z) : Sorted Z.le (sort l).
Proof.
  induction l as [|x l IH]; simpl.
  - constructor.
  - now apply insert_sorted_sorted.
Qed.

(** Two sorted lists with the same elements are equal. *)
Lemma sorted_perm_eq (l1 l2 : list Z) :
  Sorted Z.le l1 -> Sorted Z.le l2 -> Permutation l1 l2 -> l1 = l2.
Proof.
  intros H1 H2.
  apply Sorted_StronglySorted in H1; [|intros a b c; apply Z.le_trans].
  apply Sorted_StronglySorted in H2; [|intros a b c; apply Z.le_trans].
  revert l2 H2.
  induction H1 as [|x l1 Hs1 IH Hx]; intros l2 H2 HP.
  - apply Permutation_nil in HP. now subst.
  - destruct H2 as [|y l2 Hs2 Hy].
    + apply Permutation_sym, Permutation_nil in HP. discriminate.
    + assert (x = y) as ->.
      { assert (In x (y :: l2)) as [->|Hin1]
          by (eapply Permutation_in; [exact HP | now left]);
          [reflexivity|].
        assert (In y (x :: l1)) as [->|Hin2]
          by (eapply Permutation_in; [symmetry; exact HP | now left]);
          [reflexivity|].
        rewrite Forall_forall in Hx, Hy.
        specialize (Hx _ Hin2). specialize (Hy _ Hin1). lia. }
      f_equal. apply IH; [assumption|].
      now apply Permutation_cons_inv in HP.
Qed.

Lemma sort_of_perm (l1 l2 : list Z) :
  Permutation l1 l2 -> sort l1 = sort l2.
Proof.
  intros HP. apply sorted_perm_eq; try apply sort_sorted.
  now rewrite !sort_perm.
Qed.

(** The quantile depends on the values only, not on the order of rows. *)
Lemma quantile_of_perm (l1 l2 : list Z) (q : Q) :
  Permutation l1 l2 -> quantile l1 q = quantile l2 q.
Proof.
  intros HP. unfold quantile.
  destruct l1 as [|x1 l1], l2 as [|x2 l2].
  - reflexivity.
  - apply Permutation_nil in HP. discriminate.
  - apply Permutation_sym, Permutation_nil in HP. discriminate.
  - rewrite (sort_of_perm _ _ HP), (Permutation_length HP). reflexivity.
Qed.









End Quantile.


(** ** The spreadsheet recurrence *)

Section Recurrence.

Variables weekly_demand weekly_capacity : list Z.
Variable initial_waiting_list : Z.

Let run := run_loop weekly_demand weekly_capacity initial_waiting_list.
Let simulated :=
  Simulated_Waiting_List weekly_demand weekly_capacity initial_waiting_list.

Lemma run_loop_S (n : nat) :
  run (S n) = loop_body weekly_demand weekly_capacity (run n) n.
Proof.
  unfold run, run_loop. rewrite seq_S, fold_left_app. reflexivity.
Qed.

Lemma run_loop_length (n : nat) : length (run n) = S n.
Proof.
  induction n as [|n IH]; [reflexivity|].
  rewrite run_loop_S. unfold loop_body.
  rewrite length_app, IH. simpl. lia.
Qed.

Lemma simulated_S (n : nat) :
  simulated (S n) =
  simulated n ++
  [Z.max (last (run n) 0 + (nth n weekly_demand 0 - nth n weekly_capacity 0)) 0].
Proof.
  unfold simulated, Simulated_Waiting_List. fold run.
  rewrite run_loop_S. unfold loop_body.
  pose proof (run_loop_length n) as Hlen.
  destruct (run n) as [|x l]; [discriminate|]. reflexivity.
Qed.

Lemma simulated_length (n : nat) : length (simulated n) = n.
Proof.
  unfold simulated, Simulated_Waiting_List. fold run.
  pose proof (run_loop_length n) as Hlen.
  destruct (run n); simpl in *; lia.
Qed.


End Recurrence.

Lemma map_combine_snd (f : Z * Z -> bool) (weeks col : list Z) :
  length weeks = length col ->
  map (fun wa => if f wa then snd wa + 0 else snd wa) (combine weeks col) = col.
Proof.
  revert col. induction weeks as [|w weeks IH]; intros [|a col] Hlen;
    try discriminate; [reflexivity|].
  simpl. rewrite IH by (simpl in Hlen; lia).
  destruct (f (w, a)); f_equal; lia.
Qed.

(** Events whose boost is 0 leave the adjustment column at zero. *)
Lemma apply_events_zero (weeks : list Z) (events : list (Z * Z)) :
  Forall (fun ev => snd ev = 0) events ->
  apply_events weeks events = repeat 0 (length weeks).
Proof.
  unfold apply_events. generalize (repeat_length 0 (length weeks)).
  generalize (repeat 0 (length weeks)) as col.
  intros col Hlen Hev. revert col Hlen.
  induction Hev as [|ev events Hz _ IH]; intros col Hlen; [reflexivity|].
  simpl. rewrite Hz.
  rewrite (map_combine_snd (fun wa => fst ev <=? fst wa)) by congruence.
  now apply IH.
Qed.

(** ** simulate_future *)


(** The loop of lines 133-135 adds to its starting value the sum of the
    changes of the active initiatives. *)
Lemma add_initiatives_sum (initiatives : list Initiative) (week base : Z) :
  add_initiatives initiatives week base =
  base + sumZ (map change (filter (fun item => is_active item week) initiatives)).
Proof.
  unfold add_initiatives. revert base.
  induction initiatives as [|item rest IH]; intros base; simpl.
  - lia.
  - rewrite IH. destruct (is_active item week); simpl; lia.
Qed.

Lemma loop_rows (body : Z -> nat -> result (Z * Z)) (range : list nat) :
  forall (wl : Z) (future_data : list (Z * Z)),
  loop body range wl = inr future_data ->
  length future_data = length range /\
  forall k, (k < length range)%nat ->
    body (wl_before wl future_data k) (nth k range O) =
    inr (nth k future_data (0, 0)).
Proof.
  induction range as [|i rest IH]; intros wl future_data; simpl.
  - intros [= <-]. split; [reflexivity|]. intros k Hk. lia.
  - destruct (body wl i) as [e|row] eqn:Hrow; simpl; [discriminate|].
    destruct (loop body rest (snd row)) as [e|tail] eqn:Htail; simpl;
      [discriminate|].
    intros [= <-]. destruct (IH _ _ Htail) as [Hlen Hnth].
    split; [simpl; congruence|].
    intros [|k] Hk; [exact Hrow|].
    specialize (Hnth k ltac:(lia)).
    destruct k as [|k]; simpl in *; exact Hnth.
Qed.

Lemma loop_ext (body1 body2 : Z -> nat -> result (Z * Z)) (range : list nat) :
  (forall wl i, In i range -> body1 wl i = body2 wl i) ->
  forall wl, loop body1 range wl = loop body2 range wl.
Proof.
  induction range as [|i rest IH]; intros Hext wl; simpl; [reflexivity|].
  rewrite (Hext wl i) by now left.
  destruct (body2 wl i) as [e|row]; simpl; [reflexivity|].
  rewrite IH; [reflexivity|]. intros wl' j Hj. apply Hext. now right.
Qed.

(** If the body succeeds at every index, whatever the running value, the
    loop returns a trajectory. *)
Lemma loop_total (body : Z -> nat -> result (Z * Z)) (range : list nat) :
  (forall wl i, In i range -> exists row, body wl i = inr row) ->
  forall wl, exists future_data, loop body range wl = inr future_data.
Proof.
  induction range as [|i rest IH]; intros Hok wl; simpl.
  - now exists [].
  - destruct (Hok wl i ltac:(now left)) as [row ->]. simpl.
    destruct (IH (fun wl' j Hj => Hok wl' j (or_intror Hj)) (snd row))
      as [tail ->].
    simpl. now exists (row :: tail).
Qed.

Section SimulateFuture.

Variable today : Z.
Variables reset_1 reset_2 : option Reset.


(** What one successful iteration appends. *)
Lemma week_body_inv (df : list Row) (last_actual_row : Row)
    (weeks_ahead : nat) (initiatives : list Initiative) (wl : Z) (i : nat)
    (row : Z * Z) :
  week_body reset_1 reset_2 df last_actual_row weeks_ahead initiatives wl i
  = inr row ->
  let next_week := next_week_of (WeekCommencing last_actual_row) i in
  exists demand stops,
    clock_start_65 df next_week = inr demand /\
    clock_stop_65 df next_week = inr stops /\
    row =
    (next_week,
     let wl' :=
       max0_sub (apply_resets reset_1 reset_2 next_week wl)
         (adjusted_clock_stop last_actual_row initiatives i next_week stops) in
     if Z.of_nat i <? Z.of_nat weeks_ahead - 1 then wl' + demand else wl').
Proof.
  unfold week_body.
  destruct (clock_start_65 df _) as [e|demand]; simpl; [discriminate|].
  destruct (clock_stop_65 df _) as [e|stops]; simpl; [discriminate|].
  intros [= <-]. exists demand, stops. repeat split.
Qed.

(** The rows of a successful run, one by one. *)
Lemma simulate_future_rows (df : list Row) (weeks_ahead : nat)
    (initiatives : list Initiative) (future_data : list (Z * Z)) :
  simulate_future today reset_1 reset_2 df weeks_ahead initiatives
  = inr future_data ->
  exists last_actual_row,
    iloc_last (historic today df) = inr last_actual_row /\
    length future_data = weeks_ahead /\
    forall i, (i < weeks_ahead)%nat ->
      week_body reset_1 reset_2 df last_actual_row weeks_ahead initiatives
        (wl_before (Over52Weeks last_actual_row) future_data i) i
      = inr (nth i future_data (0, 0)).
Proof.
  unfold simulate_future, historic.
  destruct (iloc_last _) as [e|last_actual_row]; simpl; [discriminate|].
  intros Hloop. exists last_actual_row. split; [reflexivity|].
  apply loop_rows in Hloop. destruct Hloop as [Hlen Hrows].
  rewrite length_seq in Hlen, Hrows. split; [exact Hlen|].
  intros i Hi. specialize (Hrows i Hi).
  now rewrite seq_nth in Hrows.
Qed.

End SimulateFuture.

(** From a successful run [Hrun] whose last actual row is known by [Hlast],
    obtain the row-by-row description [Hrows]. *)
Ltac run_rows Hrun Hlast Hrows :=
  let last' := fresh "last'" in
  let Hlast' := fresh "Hlast'" in
  apply simulate_future_rows in Hrun;
  destruct Hrun as (last' & Hlast' & _ & Hrows);
  rewrite Hlast in Hlast'; injection Hlast' as <-.

(** ** When a run fails and when it returns *)

Lemma iloc_last_nil_iff {A : Type} (rows : list A) :
  rows = [] <-> iloc_last rows = inl IndexError.
Proof.
  unfold iloc_last. split.
  - intros ->. reflexivity.
  - destruct (rev rows) eqn:E; [|discriminate]. intros _.
    rewrite <- (rev_involutive rows), E. reflexivity.
Qed.

Lemma iloc_last_In {A : Type} (rows : list A) (r : A) :
  iloc_last rows = inr r -> In r rows.
Proof.
  unfold iloc_last. destruct (rev rows) eqn:E; [discriminate|].
  intros [= <-]. apply in_rev. rewrite E. now left.
Qed.

Lemma dropna_In (col : list (option Z)) (v : Z) :
  In v (dropna col) <-> In (Some v) col.
Proof.
  induction col as [|[x|] col IH]; simpl.
  - tauto.
  - rewrite IH. split; intros [H|H]; auto; left; congruence.
  - rewrite IH. split; [auto | intros [H|H]; [discriminate | exact H]].
Qed.

Lemma percentile_65_empty (col : list (option Z)) :
  dropna col = [] -> percentile_65 col = inl ValueError.
Proof. unfold percentile_65. intros ->. reflexivity. Qed.

Lemma percentile_65_raises (col : list (option Z)) (e : exn) :
  percentile_65 col = inl e -> e = ValueError.
Proof.
  unfold percentile_65. destruct (quantile (dropna col) q65); simpl.
  - discriminate.
  - now intros [= <-].
Qed.

Lemma percentile_65_present (col : list (option Z)) (v : Z) :
  In (Some v) col -> exists k, percentile_65 col = inr k.
Proof.
  intros Hin. apply dropna_In in Hin. unfold percentile_65, quantile.
  destruct (dropna col); [contradiction|]. simpl. eauto.
Qed.

Lemma extended_historic_mono (df : list Row) (w w' : Z) (r : Row) :
  w <= w' -> In r (extended_historic df w) -> In r (extended_historic df w').
Proof.
  unfold extended_historic. rewrite !filter_In, !Z.ltb_lt. intuition lia.
Qed.

Lemma next_week_of_mono (start_date : Z) (i : nat) :
  next_week_of start_date 0 <= next_week_of start_date i.
Proof. unfold next_week_of. lia. Qed.

Section Totality.

Variable today : Z.
Variables reset_1 reset_2 : option Reset.

Lemma week_body_total (df : list Row) (last_actual_row : Row)
    (weeks_ahead : nat) (initiatives : list Initiative) (v1 v2 : Z) :
  let first_week := next_week_of (WeekCommencing last_actual_row) 0 in
  In (Some v1) (map ClockStarts_52_weeks (extended_historic df first_week)) ->
  In (Some v2) (map ClockStops_52_weeks (extended_historic df first_week)) ->
  forall wl i, exists row,
    week_body reset_1 reset_2 df last_actual_row weeks_ahead initiatives wl i
    = inr row.
Proof.
  intros first_week H1 H2 wl i. unfold week_body.
  pose proof (next_week_of_mono (WeekCommencing last_actual_row) i) as Hle.
  apply in_map_iff in H1. destruct H1 as [r1 [E1 Hr1]].
  apply in_map_iff in H2. destruct H2 as [r2 [E2 Hr2]].
  apply (extended_historic_mono _ _ _ _ Hle) in Hr1, Hr2.
  destruct (percentile_65_present
    (map ClockStarts_52_weeks
       (extended_historic df (next_week_of (WeekCommencing last_actual_row) i)))
    v1) as [k1 Hk1].
  { rewrite <- E1. now apply in_map. }
  destruct (percentile_65_present
    (map ClockStops_52_weeks
       (extended_historic df (next_week_of (WeekCommencing last_actual_row) i)))
    v2) as [k2 Hk2].
  { rewrite <- E2. now apply in_map. }
  unfold clock_start_65, clock_stop_65. rewrite Hk1, Hk2. simpl. eauto.
Qed.

(** A run returns a trajectory as soon as a row lies before [today] and
    both forecast columns hold a value before the first forecast week. *)
Lemma simulate_future_total (df : list Row) (weeks_ahead : nat)
    (initiatives : list Initiative) (last_actual_row : Row) (v1 v2 : Z) :
  iloc_last (historic today df) = inr last_actual_row ->
  let first_week := next_week_of (WeekCommencing last_actual_row) 0 in
  In (Some v1) (map ClockStarts_52_weeks (extended_historic df first_week)) ->
  In (Some v2) (map ClockStops_52_weeks (extended_historic df first_week)) ->
  exists future_data,
    simulate_future today reset_1 reset_2 df weeks_ahead initiatives
    = inr future_data.
Proof.
  intros Hlast first_week H1 H2. unfold simulate_future.
  unfold historic in Hlast. rewrite Hlast. simpl.
  apply loop_total. intros wl i _.
  eapply week_body_total; eassumption.
Qed.

Lemma simulate_future_no_history (df : list Row) (weeks_ahead : nat)
    (initiatives : list Initiative) :
  historic today df = [] ->
  simulate_future today reset_1 reset_2 df weeks_ahead initiatives
  = inl IndexError.
Proof.
  unfold simulate_future, historic. intros ->. reflexivity.
Qed.

Lemma simulate_future_no_value (df : list Row) (weeks_ahead : nat)
    (initiatives : list Initiative) (last_actual_row : Row) :
  iloc_last (historic today df) = inr last_actual_row ->
  (0 < weeks_ahead)%nat ->
  let first_week := next_week_of (WeekCommencing last_actual_row) 0 in
  dropna (map ClockStarts_52_weeks (extended_historic df first_week)) = [] \/
  dropna (map ClockStops_52_weeks (extended_historic df first_week)) = [] ->
  simulate_future today reset_1 reset_2 df weeks_ahead initiatives
  = inl ValueError.
Proof.
  intros Hlast Hw first_week Hnan. unfold simulate_future.
  unfold historic in Hlast. rewrite Hlast. simpl.
  destruct weeks_ahead as [|n]; [lia|].
  cbn [seq loop]. unfold week_body at 1.
  fold first_week. unfold clock_start_65, clock_stop_65.
  destruct Hnan as [Hnan|Hnan].
  - rewrite (percentile_65_empty _ Hnan). reflexivity.
  - rewrite (percentile_65_empty _ Hnan).
    destruct (percentile_65 _) as [e|k] eqn:E; [|reflexivity].
    apply percentile_65_raises in E. subst e. reflexivity.
Qed.

End Totality.

(** * The claims *)

(** C1, as stated, fails on [simulate_future]: with today = day 21 the three
    forecast weeks 21, 28 and 35 each have extrapolated demand 10 and capacity
    15 (the first week takes the last actual capacity, 15 as well), there are
    no initiatives and no resets, and the trajectory is [95, 90, 75], not
    [95, 90, 85]. *)
Lemma three_period_main_differs :
  clock_start_65 three_week_history 21 = inr 10 /\
  clock_start_65 three_week_history 28 = inr 10 /\
  clock_start_65 three_week_history 35 = inr 10 /\
  clock_stop_65 three_week_history 21 = inr 15 /\
  clock_stop_65 three_week_history 28 = inr 15 /\
  clock_stop_65 three_week_history 35 = inr 15 /\
  simulate_future 21 None None three_week_history 3 []
  = inr [(21, 95); (28, 90); (35, 75)] /\
  map snd [(21, 95); (28, 90); (35, 75)] <> [95; 90; 85].
Proof.
  repeat split; try reflexivity. discriminate.
Qed.

(** C1 (amended).  Initial value 100, three periods with demand 10 and
    capacity 15, no adjustment and no reset: the recurrence of the three
    spreadsheet scripts (final, branch, Branch6, with and without
    initiatives) yields [95, 90, 85]; [simulate_future] yields
    [95, 90, 75], its last week adding no demand. *)
Theorem three_period_trajectory :
  (forall df,
     length df = 3%nat ->
     Forall (fun r => Final.Demand r = 10 /\ Final.Capacity r = 15) df ->
     Final.simulate df 100 0 0 = [95; 90; 85]) /\
  (forall df locum_events,
     length df = 3%nat ->
     Forall (fun r => Branch.Starts r = 10 /\ Branch.Stops r = 15) df ->
     Forall (fun ev => snd ev = 0) locum_events ->
     Branch.simulate df 100 0 0 locum_events = [95; 90; 85]) /\
  (forall df initiative_events,
     length df = 3%nat ->
     Forall (fun r => Branch6.Starts r = 10 /\ Branch6.Stops r = 15) df ->
     Forall (fun ev => snd ev = 0) initiative_events ->
     Branch6.simulate df 100 initiative_events = [95; 90; 85] /\
     Branch6.simulate_no_initiatives df 100 = [95; 90; 85]) /\
  (forall today df last_actual_row,
     iloc_last (historic today df) = inr last_actual_row ->
     Over52Weeks last_actual_row = 100 ->
     ClockStops_52_weeks last_actual_row = Some 15 ->
     let week := next_week_of (WeekCommencing last_actual_row) in
     (forall i, (i < 3)%nat ->
        clock_start_65 df (week i) = inr 10 /\
        clock_stop_65 df (week i) = inr 15) ->
     simulate_future today None None df 3 []
     = inr [(week 0%nat, 95); (week 1%nat, 90); (week 2%nat, 75)]).
Proof.
  split; [|split; [|split]].
  - intros [|[d1 c1] [|[d2 c2] [|[d3 c3] [|]]]] Hlen Hall; try discriminate.
    inversion Hall as [|? ? [H1 H1'] Hall2]; subst.
    inversion Hall2 as [|? ? [H2 H2'] Hall3]; subst.
    inversion Hall3 as [|? ? [H3 H3'] _]; subst.
    simpl in *. subst. reflexivity.
  - intros [|[w1 d1 c1] [|[w2 d2 c2] [|[w3 d3 c3] [|]]]] events Hlen Hall Hev;
      try discriminate.
    inversion Hall as [|? ? [H1 H1'] Hall2]; subst.
    inversion Hall2 as [|? ? [H2 H2'] Hall3]; subst.
    inversion Hall3 as [|? ? [H3 H3'] _]; subst.
    unfold Branch.simulate. rewrite (apply_events_zero _ _ Hev).
    simpl in *. subst. reflexivity.
  - intros [|[w1 d1 c1] [|[w2 d2 c2] [|[w3 d3 c3] [|]]]] events Hlen Hall Hev;
      try discriminate.
    inversion Hall as [|? ? [H1 H1'] Hall2]; subst.
    inversion Hall2 as [|? ? [H2 H2'] Hall3]; subst.
    inversion Hall3 as [|? ? [H3 H3'] _]; subst.
    unfold Branch6.simulate, Branch6.simulate_no_initiatives.
    rewrite (apply_events_zero _ _ Hev).
    simpl in *. subst. split; reflexivity.
  - intros today df last_actual_row Hlast Hwl Hstops week Hclock.
    unfold simulate_future. unfold historic in Hlast. rewrite Hlast. simpl.
    unfold week_body. fold week.
    destruct (Hclock 0%nat ltac:(lia)) as [-> ->].
    destruct (Hclock 1%nat ltac:(lia)) as [-> ->].
    destruct (Hclock 2%nat ltac:(lia)) as [-> ->].
    simpl. unfold apply_resets, adjusted_clock_stop. simpl.
    rewrite Hwl, Hstops. reflexivity.
Qed.

Lemma three_period_trajectory_witness :
  Final.simulate
    [ {| Final.Demand := 10; Final.Capacity := 15 |};
      {| Final.Demand := 10; Final.Capacity := 15 |};
      {| Final.Demand := 10; Final.Capacity := 15 |} ] 100 0 0
  = [95; 90; 85] /\
  Branch.simulate
    [ {| Branch.Week := 0; Branch.Starts := 10; Branch.Stops := 15 |};
      {| Branch.Week := 7; Branch.Starts := 10; Branch.Stops := 15 |};
      {| Branch.Week := 14; Branch.Starts := 10; Branch.Stops := 15 |} ]
    100 0 0 [(7, 0); (7, 0); (7, 0); (7, 0); (7, 0)]
  = [95; 90; 85] /\
  Branch6.simulate
    [ {| Branch6.Week := 0; Branch6.Starts := 10; Branch6.Stops := 15 |};
      {| Branch6.Week := 7; Branch6.Starts := 10; Branch6.Stops := 15 |};
      {| Branch6.Week := 14; Branch6.Starts := 10; Branch6.Stops := 15 |} ]
    100 [(7, 0); (7, 0); (7, 0); (7, 0); (7, 0)]
  = [95; 90; 85] /\
  simulate_future 21 None None three_week_history 3 []
  = inr [(21, 95); (28, 90); (35, 75)].
Proof.
  destruct three_period_trajectory as (HF & HB & HB6 & HM).
  split; [|split; [|split]].
  - apply HF; [reflexivity | repeat constructor].
  - apply HB; [reflexivity | repeat constructor | repeat constructor].
  - apply HB6; [reflexivity | repeat constructor | repeat constructor].
  - apply (HM 21 three_week_history (row 14 100 10 15));
      try reflexivity.
    intros [|[|[|i]]] Hi; try lia; split; reflexivity.
Defined.











(** C5.  The extrapolator draws on the rows strictly before the target
    week, leaves out the NaN cells and takes the 0.65 quantile by linear
    interpolation; whenever the values so selected are 10, 10, 10, 20, 20 in
    some order the quantile is 16 (and its integer part, the clock stops
    used, is 16). *)
Theorem quantile_65_example (df : list Row) (next_week : Z) :
  let window := extended_historic df next_week in
  let values := dropna (map ClockStops_52_weeks window) in
  Permutation values [10; 10; 10; 20; 20] ->
  (forall r, In r window <-> In r df /\ WeekCommencing r < next_week) /\
  (forall v, In v values <-> exists r, In r window /\ ClockStops_52_weeks r = Some v) /\
  (exists q, quantile values q65 = Some q /\ (q == 16)%Q) /\
  clock_stop_65 df next_week = inr 16.
Proof.
  intros window values HP.
  split.
  { intros r. unfold window, extended_historic.
    now rewrite filter_In, Z.ltb_lt. }
  split.
  { intros v. unfold values. rewrite dropna_In, in_map_iff.
    split; intros [r Hr]; exists r; tauto. }
  split.
  - rewrite (quantile_of_perm _ _ q65 HP). eexists. split; reflexivity.
  - unfold clock_stop_65, percentile_65. fold window. fold values.
    rewrite (quantile_of_perm _ _ q65 HP). reflexivity.
Qed.

Lemma quantile_65_example_witness :
  dropna (map ClockStops_52_weeks (extended_historic quantile_history 42))
  = [20; 10; 10; 20; 10] /\
  clock_stop_65 quantile_history 42 = inr 16.
Proof.
  split; [reflexivity|].
  apply (quantile_65_example quantile_history 42).
  change (Permutation [20; 10; 10; 20; 10] [10; 10; 10; 20; 20]).
  apply perm_trans with (l' := [10; 20; 10; 20; 10]); [apply perm_swap|].
  apply perm_skip.
  apply perm_trans with (l' := [10; 20; 20; 10]); [apply perm_swap|].
  apply perm_skip.
  apply perm_trans with (l' := [20; 10; 20]); [apply perm_skip, perm_swap|].
  apply perm_trans with (l' := [10; 20; 20]); [apply perm_swap|].
  apply Permutation_refl.
Defined.



(** C7, as stated, fails: with both resets enabled on the same date
    (week 28, values 50 and 70) the run is not rejected; it returns a
    trajectory, and week 28 is computed from 70, the value of reset 2
    (max(0, 70 - 15) + 10 = 65). *)
Lemma same_date_resets_accepted :
  simulate_future 21
    (Some {| reset_date := 28; reset_value := 50 |})
    (Some {| reset_date := 28; reset_value := 70 |})
    three_week_history 3 []
  = inr [(21, 95); (28, 65); (35, 50)].
Proof. reflexivity. Qed.

Lemma apply_resets_same_date (r1 r2 : Reset) (next_week wl : Z) :
  reset_date r1 = reset_date r2 ->
  apply_resets (Some r1) (Some r2) next_week wl
  = apply_resets None (Some r2) next_week wl.
Proof.
  intros Hd. unfold apply_resets, apply_reset. rewrite Hd.
  destruct (next_week =? reset_date r2); reflexivity.
Qed.

(** C7 (amended).  Two resets with the same date are accepted without any
    check: the run behaves exactly as if reset 1 were disabled, the value of
    reset 2 overwriting that of reset 1 at their common date. *)
Theorem same_date_resets_keep_second (today : Z) (r1 r2 : Reset)
    (df : list Row) (weeks_ahead : nat) (initiatives : list Initiative) :
  reset_date r1 = reset_date r2 ->
  (forall next_week wl,
     next_week = reset_date r2 ->
     apply_resets (Some r1) (Some r2) next_week wl = reset_value r2) /\
  simulate_future today (Some r1) (Some r2) df weeks_ahead initiatives
  = simulate_future today None (Some r2) df weeks_ahead initiatives.
Proof.
  intros Hd. split.
  - intros next_week wl ->. unfold apply_resets, apply_reset.
    rewrite Hd, Z.eqb_refl. reflexivity.
  - unfold simulate_future.
    destruct (iloc_last _) as [e|last_actual_row]; simpl; [reflexivity|].
    apply loop_ext. intros wl i _. unfold week_body.
    rewrite apply_resets_same_date by exact Hd. reflexivity.
Qed.

Lemma same_date_resets_keep_second_witness :
  simulate_future 21
    (Some {| reset_date := 28; reset_value := 50 |})
    (Some {| reset_date := 28; reset_value := 70 |})
    three_week_history 3 []
  = simulate_future 21 None
      (Some {| reset_date := 28; reset_value := 70 |})
      three_week_history 3 [].
Proof.
  apply (same_date_resets_keep_second 21
           {| reset_date := 28; reset_value := 50 |}
           {| reset_date := 28; reset_value := 70 |}).
  reflexivity.
Defined.

(** C8, as stated, fails on the error raised: with no row before today the
    module-level estimate stops on the ValueError of [int(nan)] and
    [simulate_future] on the IndexError of [iloc[-1]]; with rows but no
    clock-start value the run stops on ValueError; neither is an
    InsufficientHistory error. *)
Lemma empty_history_raises_index_error :
  clock_start_65_historic 21 [] = inl ValueError /\
  simulate_future 21 None None [] 52 [] = inl IndexError /\
  simulate_future 21 None None
    [ {| WeekCommencing := 14; Over52Weeks := 100;
         ClockStarts := None; ClockStops := None;
         ClockStarts_52_weeks := None; ClockStops_52_weeks := Some 15 |} ]
    52 []
  = inl ValueError /\
  IndexError <> PyExn "InsufficientHistory" /\
  ValueError <> PyExn "InsufficientHistory".
Proof.
  repeat split; try reflexivity; discriminate.
Qed.

(** C8 (amended).  If no row lies before today, the run fails with
    IndexError (and the module-level estimates of lines 57-58 with
    ValueError); if a row does, at least one week is asked for and the rows
    before the first forecast week hold no clock-start value or no
    clock-stop value, it fails with ValueError.  In both cases the
    exception is the result of the run: no value is substituted and no
    trajectory is returned. *)
Theorem empty_history_fails (today : Z) (reset_1 reset_2 : option Reset)
    (df : list Row) (weeks_ahead : nat) (initiatives : list Initiative) :
  let run :=
    simulate_future today reset_1 reset_2 df weeks_ahead initiatives in
  (historic today df = [] ->
   run = inl IndexError /\
   clock_start_65_historic today df = inl ValueError /\
   clock_stop_65_historic today df = inl ValueError) /\
  (forall last_actual_row,
     iloc_last (historic today df) = inr last_actual_row ->
     (0 < weeks_ahead)%nat ->
     let first_week := next_week_of (WeekCommencing last_actual_row) 0 in
     dropna (map ClockStarts_52_weeks (extended_historic df first_week)) = [] \/
     dropna (map ClockStops_52_weeks (extended_historic df first_week)) = [] ->
     run = inl ValueError).
Proof.
  intros run. split.
  - intros Hnone. split; [now apply simulate_future_no_history|].
    unfold clock_start_65_historic, clock_stop_65_historic.
    rewrite Hnone. split; reflexivity.
  - intros. eapply simulate_future_no_value; eassumption.
Qed.

Lemma empty_history_fails_witness :
  simulate_future 21 None None [] 52 [] = inl IndexError /\
  simulate_future 21 None None
    [ {| WeekCommencing := 14; Over52Weeks := 100;
         ClockStarts := None; ClockStops := None;
         ClockStarts_52_weeks := Some 10; ClockStops_52_weeks := None |} ]
    52 []
  = inl ValueError.
Proof.
  split.
  - apply (proj1 (empty_history_fails 21 None None [] 52 [])). reflexivity.
  - eapply (proj2 (empty_history_fails 21 None None _ 52 [])).
    + reflexivity.
    + lia.
    + right. reflexivity.
Defined.





(** * Further properties of the scripts *)

(** ** The spreadsheet recurrence, week by week *)


Lemma run_loop_cons (d c : list Z) (init : Z) (n : nat) :
  run_loop d c init n = init :: Simulated_Waiting_List d c init n.
Proof.
  unfold Simulated_Waiting_List.
  assert (exists t, run_loop d c init n = init :: t) as [t ->]; [|reflexivity].
  induction n as [|n [t IH]]; [now exists []|].
  rewrite run_loop_S, IH. unfold loop_body. simpl. eauto.
Qed.

Lemma last_cons_nth (a : Z) (l : list Z) :
  last (a :: l) 0 =
  match length l with
  | O => a
  | S j => nth j l 0
  end.
Proof.
  revert a. induction l as [|x l IH]; intros a; [reflexivity|].
  change (last (a :: x :: l) 0) with (last (x :: l) 0).
  rewrite IH. simpl. destruct l; reflexivity.
Qed.

Lemma simulated_nth (d c : list Z) (init : Z) (n k : nat) :
  (k < n)%nat ->
  let simulated := Simulated_Waiting_List d c init n in
  length simulated = n /\
  nth k simulated 0 =
  Z.max (value_before init simulated k + (nth k d 0 - nth k c 0)) 0.
Proof.
  intros Hk simulated. split; [apply simulated_length|].
  subst simulated. revert k Hk.
  induction n as [|n IH]; intros k Hk; [lia|].
  rewrite simulated_S.
  pose proof (simulated_length d c init n) as Hlen.
  destruct (Nat.eq_dec k n) as [->|Hne].
  - rewrite app_nth2 by lia. rewrite Hlen, Nat.sub_diag. simpl nth at 1.
    rewrite run_loop_cons, last_cons_nth, Hlen.
    destruct n as [|j]; [reflexivity|].
    simpl value_before. rewrite app_nth1 by lia. reflexivity.
  - rewrite app_nth1 by lia. rewrite (IH k) by lia.
    destruct k as [|j]; [reflexivity|].
    simpl value_before. rewrite app_nth1 by lia. reflexivity.
Qed.



Lemma simulated_le (d c d' c' : list Z) (init init' : Z) (n : nat) :
  init <= init' ->
  (forall k, (k < n)%nat ->
     nth k d 0 - nth k c 0 <= nth k d' 0 - nth k c' 0) ->
  forall k, (k < n)%nat ->
    nth k (Simulated_Waiting_List d c init n) 0
    <= nth k (Simulated_Waiting_List d' c' init' n) 0.
Proof.
  intros Hinit Hnet k. induction k as [|j IH]; intros Hk.
  - rewrite (proj2 (simulated_nth d c init n 0 Hk)).
    rewrite (proj2 (simulated_nth d' c' init' n 0 Hk)).
    simpl value_before. specialize (Hnet 0%nat Hk). lia.
  - rewrite (proj2 (simulated_nth d c init n (S j) Hk)).
    rewrite (proj2 (simulated_nth d' c' init' n (S j) Hk)).
    simpl value_before. specialize (Hnet (S j) Hk).
    specialize (IH ltac:(lia)). lia.
Qed.






(** ** Event boosts of the spreadsheet scripts *)

Lemma events_step_nth (weeks col : list Z) (ev : Z * Z) (k : nat) :
  length col = length weeks -> (k < length weeks)%nat ->
  nth k (map (fun wa => if fst ev <=? fst wa then snd wa + snd ev else snd wa)
             (combine weeks col)) 0
  = nth k col 0 + (if fst ev <=? nth k weeks 0 then snd ev else 0).
Proof.
  revert col k. induction weeks as [|w weeks IH]; intros [|a col] k Hlen Hk;
    simpl in *; try lia.
  destruct k as [|k].
  - destruct (fst ev <=? w); lia.
  - apply IH; lia.
Qed.

Lemma events_step_length (weeks col : list Z) (ev : Z * Z) :
  length col = length weeks ->
  length (map (fun wa => if fst ev <=? fst wa then snd wa + snd ev else snd wa)
              (combine weeks col)) = length weeks.
Proof. intros Hlen. rewrite length_map, length_combine. lia. Qed.

Lemma fold_events_nth (weeks : list Z) (events : list (Z * Z)) :
  forall col, length col = length weeks ->
  let result :=
    fold_left
      (fun col ev =>
         map (fun wa => if fst ev <=? fst wa then snd wa + snd ev else snd wa)
             (combine weeks col))
      events col in
  length result = length weeks /\
  forall k, (k < length weeks)%nat ->
    nth k result 0 =
    nth k col 0 +
    sumZ (map snd (filter (fun ev => fst ev <=? nth k weeks 0) events)).
Proof.
  induction events as [|ev events IH]; intros col Hlen; simpl.
  - split; [exact Hlen|]. intros; lia.
  - destruct (IH _ (events_step_length weeks col ev Hlen)) as [Hl Hn].
    split; [exact Hl|]. intros k Hk. rewrite (Hn k Hk).
    rewrite events_step_nth by assumption.
    destruct (fst ev <=? nth k weeks 0); simpl; lia.
Qed.

Lemma apply_events_nth (weeks : list Z) (events : list (Z * Z)) :
  length (apply_events weeks events) = length weeks /\
  forall k, (k < length weeks)%nat ->
    nth k (apply_events weeks events) 0 =
    sumZ (map snd (filter (fun ev => fst ev <=? nth k weeks 0) events)).
Proof.
  unfold apply_events.
  destruct (fold_events_nth weeks events (repeat 0 (length weeks))
              (repeat_length 0 (length weeks))) as [Hl Hn].
  split; [exact Hl|]. intros k Hk. rewrite (Hn k Hk), nth_repeat. lia.
Qed.

(** X4.  The adjustment column has one cell per row, and the cell of a row
    is the sum of the boosts of all events dated on or before that row's
    week: boosts are open-ended and add up. *)
Theorem apply_events_cumulative (weeks : list Z) (events : list (Z * Z)) :
  length (apply_events weeks events) = length weeks /\
  forall k, (k < length weeks)%nat ->
    nth k (apply_events weeks events) 0 =
    sumZ (map snd (filter (fun ev => fst ev <=? nth k weeks 0) events)).
Proof. exact (apply_events_nth weeks events). Qed.

Lemma apply_events_cumulative_witness :
  nth 1 (apply_events [0; 7; 14] [(7, 5); (14, 3); (0, 2)]) 0 = 5 + (2 + 0).
Proof.
  apply (proj2 (apply_events_cumulative [0; 7; 14] [(7, 5); (14, 3); (0, 2)])
           1%nat).
  simpl. lia.
Defined.


Lemma nth_map_combine {A : Type} (f : A * Z -> Z) (l : list A) (col : list Z)
    (a : A) (k : nat) :
  length col = length l -> (k < length l)%nat ->
  nth k (map f (combine l col)) 0 = f (nth k l a, nth k col 0).
Proof.
  revert col k. induction l as [|x l IH]; intros [|c col] k Hlen Hk;
    simpl in *; try lia.
  destruct k as [|k]; [reflexivity|]. apply IH; lia.
Qed.

Lemma nth_map_default {A : Type} (f : A -> Z) (l : list A) (a : A) (k : nat) :
  (k < length l)%nat -> nth k (map f l) 0 = f (nth k l a).
Proof.
  intros Hk. rewrite (nth_indep _ 0 (f a)) by (now rewrite length_map).
  apply map_nth.
Qed.



Lemma recurrence_net_only (d c d' c' : list Z) (init : Z) (n : nat) :
  (forall k, (k < n)%nat ->
     nth k d 0 - nth k c 0 = nth k d' 0 - nth k c' 0) ->
  Simulated_Waiting_List d c init n = Simulated_Waiting_List d' c' init n.
Proof.
  intros Hnet. apply (nth_ext _ _ 0 0).
  - now rewrite !simulated_length.
  - rewrite simulated_length. intros k Hk. apply Z.le_antisymm;
      apply simulated_le; try lia; intros j Hj;
      specialize (Hnet j Hj); lia.
Qed.

(** X6.  Raising the demand adjustment and the capacity adjustment by the
    same amount changes nothing, in final and in branch_branch: only the net
    change counts. *)
Theorem equal_adjustments_cancel :
  (forall df initial_waiting_list demand_adjustment capacity_adjustment t,
     Final.simulate df initial_waiting_list (demand_adjustment + t)
       (capacity_adjustment + t)
     = Final.simulate df initial_waiting_list demand_adjustment
         capacity_adjustment) /\
  (forall df initial_waiting_list demand_adjustment capacity_adjustment t
          locum_events,
     Branch.simulate df initial_waiting_list (demand_adjustment + t)
       (capacity_adjustment + t) locum_events
     = Branch.simulate df initial_waiting_list demand_adjustment
         capacity_adjustment locum_events).
Proof.
  split.
  - intros df init da ca t. unfold Final.simulate.
    apply recurrence_net_only. intros k Hk.
    set (r0 := {| Final.Demand := 0; Final.Capacity := 0 |}).
    rewrite !(nth_map_default _ df r0) by assumption. lia.
  - intros df init da ca t events. unfold Branch.simulate.
    apply recurrence_net_only. intros k Hk.
    set (r0 := {| Branch.Week := 0; Branch.Starts := 0; Branch.Stops := 0 |}).
    destruct (apply_events_nth (map Branch.Week df) events)
      as [Hlen _].
    rewrite length_map in Hlen.
    rewrite !(nth_map_default _ df r0) by assumption.
    rewrite !(nth_map_combine _ df _ r0) by assumption. simpl. lia.
Qed.

(** ** Chart markers *)

Lemma filter_head_first {A : Type} (f : A -> bool) (l : list A) (x : A)
    (rest : list A) :
  filter f l = x :: rest ->
  exists k, nth_error l k = Some x /\ f x = true /\
            forall j y, (j < k)%nat -> nth_error l j = Some y -> f y = false.
Proof.
  induction l as [|a l IH]; simpl; [discriminate|].
  destruct (f a) eqn:Ea.
  - intros [= -> _]. exists 0%nat. repeat split; [exact Ea|]. intros; lia.
  - intros Hf. destruct (IH Hf) as (k & Hk & Hx & Hbefore).
    exists (S k). repeat split; [exact Hk | exact Hx |].
    intros [|j] y Hj; simpl.
    + now intros [= <-].
    + apply Hbefore. lia.
Qed.

Lemma filter_nil_all {A : Type} (f : A -> bool) (l : list A) :
  filter f l = [] <-> forall y, In y l -> f y = false.
Proof.
  induction l as [|a l IH]; simpl.
  - split; [intros _ y [] | reflexivity].
  - destruct (f a) eqn:Ea.
    + split; [discriminate|]. intros H. specialize (H a (or_introl eq_refl)).
      congruence.
    + rewrite IH. split.
      * intros H y [<-|Hy]; auto.
      * intros H y Hy. apply H. now right.
Qed.

(** X7.  In Branch6 and branch_branch an event is marked only when its
    boost is positive and some row is dated on or after it; the marker then
    sits on the first such row of the frame, with that row's simulated
    value, and every row above it is dated before the event. *)
Theorem event_marker_first_row (weeks simulated : list Z) (ev : Z * Z) :
  let rows := combine weeks simulated in
  (event_marker weeks simulated ev = None <->
   snd ev <= 0 \/ forall row, In row rows -> fst row < fst ev) /\
  (forall w y,
     event_marker weeks simulated ev = Some (w, y) ->
     0 < snd ev /\ fst ev <= w /\
     exists k, nth_error rows k = Some (w, y) /\
               forall j row, (j < k)%nat -> nth_error rows j = Some row ->
                             fst row < fst ev).
Proof.
  intros rows. unfold event_marker. fold rows.
  destruct (0 <? snd ev) eqn:Eb.
  - apply Z.ltb_lt in Eb.
    destruct (filter (fun row => fst ev <=? fst row) rows) as [|r rest] eqn:Ef.
    + split.
      * split; [|reflexivity]. intros _. right.
        intros row Hin. apply filter_nil_all with (y := row) in Ef;
          [|exact Hin]. simpl in Ef. apply Z.leb_gt in Ef. exact Ef.
      * discriminate.
    + apply filter_head_first in Ef.
      destruct Ef as (k & Hk & Hr & Hbefore). simpl in Hr.
      apply Z.leb_le in Hr. split.
      * split; [discriminate|]. intros [Hle|Hall]; [lia|].
        apply nth_error_In in Hk. specialize (Hall r Hk). lia.
      * intros w y [= ->]. simpl in *. split; [exact Eb|].
        split; [exact Hr|]. exists k. split; [exact Hk|].
        intros j row Hj Hrow. specialize (Hbefore j row Hj Hrow).
        simpl in Hbefore. apply Z.leb_gt in Hbefore. exact Hbefore.
  - apply Z.ltb_ge in Eb. split.
    + split; [intros _; now left | reflexivity].
    + discriminate.
Qed.

Lemma event_marker_first_row_witness :
  event_marker [0; 7; 14] [95; 85; 75] (5, 10) = Some (7, 85) /\
  5 <= 7.
Proof.
  split; [reflexivity|].
  apply (proj2 (event_marker_first_row [0; 7; 14] [95; 85; 75] (5, 10)) 7 85).
  reflexivity.
Defined.

(** ** simulate_future: shape of the result, failure, resets *)

(** X8.  A run that returns gives exactly [weeks_ahead] rows, dated 7, 14,
    ... days after the last actual row, in increasing order. *)
Theorem future_weeks (today : Z) (reset_1 reset_2 : option Reset)
    (df : list Row) (weeks_ahead : nat) (initiatives : list Initiative)
    (future_data : list (Z * Z)) (last_actual_row : Row) :
  simulate_future today reset_1 reset_2 df weeks_ahead initiatives
  = inr future_data ->
  iloc_last (historic today df) = inr last_actual_row ->
  length future_data = weeks_ahead /\
  map fst future_data =
  map (fun i => WeekCommencing last_actual_row + 7 * (Z.of_nat i + 1))
      (seq 0 weeks_ahead) /\
  (forall i j, (i < j < weeks_ahead)%nat ->
     WeekCommencing last_actual_row < fst (nth i future_data (0, 0))
     < fst (nth j future_data (0, 0))).
Proof.
  intros Hrun Hlast.
  pose proof Hrun as Hrun'. apply simulate_future_rows in Hrun'.
  destruct Hrun' as (_ & _ & Hlen & _).
  run_rows Hrun Hlast Hrows.
  assert (forall i, (i < weeks_ahead)%nat ->
            fst (nth i future_data (0, 0))
            = WeekCommencing last_actual_row + 7 * (Z.of_nat i + 1)) as Hfst.
  { intros i Hi. specialize (Hrows i Hi). apply week_body_inv in Hrows.
    destruct Hrows as (demand & stops & _ & _ & ->). reflexivity. }
  split; [exact Hlen|]. split.
  - apply (nth_ext _ _ 0 0).
    + now rewrite !length_map, length_seq.
    + rewrite length_map, Hlen. intros i Hi.
      rewrite (nth_map_default fst future_data (0, 0)) by lia.
      rewrite (nth_map_default _ (seq 0 weeks_ahead) 0%nat)
        by (rewrite length_seq; lia).
      rewrite seq_nth by lia. apply Hfst, Hi.
  - intros i j Hij. rewrite (Hfst i), (Hfst j) by lia. lia.
Qed.

Lemma future_weeks_witness :
  map fst [(21, 95); (28, 90); (35, 75)] = [14 + 7 * 1; 14 + 7 * 2; 14 + 7 * 3].
Proof.
  apply (future_weeks 21 None None three_week_history 3 []
           [(21, 95); (28, 90); (35, 75)] (row 14 100 10 15) eq_refl eq_refl).
Defined.

Lemma dropna_nonempty (col : list (option Z)) :
  dropna col <> [] <-> exists v, In (Some v) col.
Proof.
  split.
  - destruct (dropna col) as [|v t] eqn:E; [congruence|]. intros _.
    exists v. apply dropna_In. rewrite E. now left.
  - intros [v Hv] E. apply dropna_In in Hv. rewrite E in Hv. contradiction.
Qed.

Lemma simulate_future_returns_iff (today : Z) (reset_1 reset_2 : option Reset)
    (df : list Row) (weeks_ahead : nat) (initiatives : list Initiative) :
  (exists future_data,
     simulate_future today reset_1 reset_2 df weeks_ahead initiatives
     = inr future_data) <->
  (exists last_actual_row,
     iloc_last (historic today df) = inr last_actual_row /\
     let first_week := next_week_of (WeekCommencing last_actual_row) 0 in
     (weeks_ahead = 0%nat \/
      (dropna (map ClockStarts_52_weeks (extended_historic df first_week))
       <> [] /\
       dropna (map ClockStops_52_weeks (extended_historic df first_week))
       <> []))).
Proof.
  split.
  - intros [future_data Hrun].
    apply simulate_future_rows in Hrun.
    destruct Hrun as (last_actual_row & Hlast & _ & Hrows).
    exists last_actual_row. split; [exact Hlast|]. cbv zeta.
    destruct weeks_ahead as [|n]; [now left|]. right.
    specialize (Hrows 0%nat ltac:(lia)). apply week_body_inv in Hrows.
    destruct Hrows as (demand & stops & Hd & Hs & _).
    unfold clock_start_65, clock_stop_65 in Hd, Hs.
    split; intros E; apply percentile_65_empty in E; congruence.
  - intros (last_actual_row & Hlast & Hcols). cbv zeta in Hcols.
    destruct Hcols as [->|[H1 H2]].
    + unfold simulate_future. unfold historic in Hlast. rewrite Hlast.
      simpl. now exists [].
    + apply dropna_nonempty in H1, H2.
      destruct H1 as [v1 H1], H2 as [v2 H2].
      eapply simulate_future_total; eassumption.
Qed.

(** X9.  A run returns a trajectory exactly when some row lies before
    today and, if any week is asked for, both forecast columns hold a value
    before the first forecast week.  Resets and initiatives play no part,
    and a run that passes its first week cannot fail later. *)
Theorem run_returns_iff (today : Z) (reset_1 reset_2 : option Reset)
    (df : list Row) (weeks_ahead : nat) (initiatives : list Initiative) :
  (exists future_data,
     simulate_future today reset_1 reset_2 df weeks_ahead initiatives
     = inr future_data) <->
  (exists last_actual_row,
     iloc_last (historic today df) = inr last_actual_row /\
     let first_week := next_week_of (WeekCommencing last_actual_row) 0 in
     (weeks_ahead = 0%nat \/
      (dropna (map ClockStarts_52_weeks (extended_historic df first_week))
       <> [] /\
       dropna (map ClockStops_52_weeks (extended_historic df first_week))
       <> []))).
Proof. exact (simulate_future_returns_iff today reset_1 reset_2 df weeks_ahead initiatives). Qed.

Lemma run_returns_iff_witness :
  exists future_data,
    simulate_future 21 (Some {| reset_date := 28; reset_value := 3 |}) None
      three_week_history 52 [one_week_clinic]
    = inr future_data.
Proof.
  apply (proj2 (run_returns_iff 21
                  (Some {| reset_date := 28; reset_value := 3 |}) None
                  three_week_history 52 [one_week_clinic])).
  exists (row 14 100 10 15). split; [reflexivity|].
  right. split; discriminate.
Defined.

Lemma apply_reset_other_date (r : Reset) (next_week wl : Z) :
  next_week <> reset_date r -> apply_reset (Some r) next_week wl = wl.
Proof.
  intros Hne. unfold apply_reset.
  destruct (Z.eqb_spec next_week (reset_date r)); [contradiction|reflexivity].
Qed.

(** X10.  A reset whose date is not one of the forecast weeks (last actual
    week + 7, + 14, ...) has no effect at all: the run is the same as with
    that reset disabled. *)
Theorem reset_off_week_ignored (today : Z) (r : Reset) (other : option Reset)
    (df : list Row) (weeks_ahead : nat) (initiatives : list Initiative)
    (last_actual_row : Row) :
  iloc_last (historic today df) = inr last_actual_row ->
  (forall i, (i < weeks_ahead)%nat ->
     next_week_of (WeekCommencing last_actual_row) i <> reset_date r) ->
  simulate_future today (Some r) other df weeks_ahead initiatives
  = simulate_future today None other df weeks_ahead initiatives /\
  simulate_future today other (Some r) df weeks_ahead initiatives
  = simulate_future today other None df weeks_ahead initiatives.
Proof.
  intros Hlast Hoff. unfold simulate_future.
  unfold historic in Hlast. rewrite Hlast. simpl.
  split; apply loop_ext; intros wl i Hi; apply in_seq in Hi;
    unfold week_body, apply_resets;
    rewrite (apply_reset_other_date r) by (apply Hoff; lia);
    reflexivity.
Qed.

Lemma reset_off_week_ignored_witness :
  simulate_future 21 (Some {| reset_date := 30; reset_value := 3 |}) None
    three_week_history 3 []
  = simulate_future 21 None None three_week_history 3 [].
Proof.
  apply (reset_off_week_ignored 21 {| reset_date := 30; reset_value := 3 |}
           None three_week_history 3 [] (row 14 100 10 15) eq_refl).
  intros [|[|[|i]]] Hi; try lia; vm_compute; discriminate.
Defined.

(** X11.  For a run that returned, a reset gets a chart marker exactly when
    its date is one of the forecast weeks; the marker is on the row of that
    week and shows the reset's value as "New Value". *)
Theorem reset_marker_on_week (today : Z) (reset_1 reset_2 : option Reset)
    (df : list Row) (weeks_ahead : nat) (initiatives : list Initiative)
    (future_data : list (Z * Z)) (last_actual_row : Row) (r : Reset) :
  simulate_future today reset_1 reset_2 df weeks_ahead initiatives
  = inr future_data ->
  iloc_last (historic today df) = inr last_actual_row ->
  (reset_marker future_data (Some r) = None <->
   forall i, (i < weeks_ahead)%nat ->
     next_week_of (WeekCommencing last_actual_row) i <> reset_date r) /\
  (forall x y v,
     reset_marker future_data (Some r) = Some (x, y, v) ->
     x = reset_date r /\ v = reset_value r /\ In (x, y) future_data).
Proof.
  intros Hrun Hlast.
  pose proof Hrun as Hrun'. apply simulate_future_rows in Hrun'.
  destruct Hrun' as (_ & _ & Hlen & _).
  run_rows Hrun Hlast Hrows.
  assert (forall i, (i < weeks_ahead)%nat ->
            fst (nth i future_data (0, 0))
            = next_week_of (WeekCommencing last_actual_row) i) as Hfst.
  { intros i Hi. specialize (Hrows i Hi). apply week_body_inv in Hrows.
    destruct Hrows as (demand & stops & _ & _ & ->). reflexivity. }
  unfold reset_marker.
  destruct (filter (fun row => fst row =? reset_date r) future_data)
    as [|point rest] eqn:Ef.
  - split; [|discriminate]. split; [|reflexivity]. intros _ i Hi Heq.
    rewrite filter_nil_all in Ef.
    specialize (Ef (nth i future_data (0, 0))
                  (nth_In _ _ ltac:(rewrite Hlen; exact Hi))).
    simpl in Ef. rewrite (Hfst i Hi), Heq, Z.eqb_refl in Ef. discriminate.
  - assert (In point (filter (fun row => fst row =? reset_date r) future_data))
      as Hin by (rewrite Ef; now left).
    apply filter_In in Hin. destruct Hin as [Hin Hdate].
    apply Z.eqb_eq in Hdate. split.
    + split; [discriminate|]. intros Hoff.
      destruct (In_nth _ _ (0, 0) Hin) as (i & Hi & Hnth).
      rewrite Hlen in Hi. specialize (Hoff i Hi).
      rewrite <- (Hfst i Hi), Hnth in Hoff. contradiction.
    + intros x y v [= <- <- <-]. repeat split; [exact Hdate|].
      now destruct point.
Qed.

Lemma reset_marker_on_week_witness :
  reset_marker [(21, 95); (28, 10); (35, 0)]
    (Some {| reset_date := 28; reset_value := 3 |}) = Some (28, 10, 3) /\
  In (28, 10) [(21, 95); (28, 10); (35, 0)].
Proof.
  split; [reflexivity|].
  apply (proj2 (reset_marker_on_week 21
                  (Some {| reset_date := 28; reset_value := 3 |}) None
                  three_week_history 3
                  [ {| name := "Extra Clinic"; start := 21; change := 40;
                       end_ := None |} ]
                  [(21, 95); (28, 10); (35, 0)] (row 14 100 10 15)
                  {| reset_date := 28; reset_value := 3 |}
                  eq_refl eq_refl) 28 10 3).
  reflexivity.
Defined.

(** ** simulate_future: the initiatives list *)

Lemma simulate_future_initiatives_ext (today : Z)
    (reset_1 reset_2 : option Reset) (df : list Row) (weeks_ahead : nat)
    (initiatives initiatives' : list Initiative) :
  (forall week base,
     add_initiatives initiatives week base
     = add_initiatives initiatives' week base) ->
  simulate_future today reset_1 reset_2 df weeks_ahead initiatives
  = simulate_future today reset_1 reset_2 df weeks_ahead initiatives'.
Proof.
  intros Hsame. unfold simulate_future.
  destruct (iloc_last _) as [e|last_actual_row]; simpl; [reflexivity|].
  apply loop_ext. intros wl i _. unfold week_body, adjusted_clock_stop.
  destruct (clock_start_65 df _); simpl; [reflexivity|].
  destruct (clock_stop_65 df _); simpl; [reflexivity|].
  now rewrite Hsame.
Qed.

Lemma active_sum_perm (week : Z) (l l' : list Initiative) :
  Permutation l l' ->
  sumZ (map change (filter (fun item => is_active item week) l))
  = sumZ (map change (filter (fun item => is_active item week) l')).
Proof.
  induction 1 as [|x l l' _ IH|x y l|l l' l'' _ IH1 _ IH2]; simpl.
  - reflexivity.
  - destruct (is_active x week); simpl; lia.
  - destruct (is_active x week), (is_active y week); simpl; lia.
  - congruence.
Qed.

(** X12.  The forecast does not depend on the order in which the
    initiatives are listed. *)
Theorem initiatives_order_irrelevant (today : Z)
    (reset_1 reset_2 : option Reset) (df : list Row) (weeks_ahead : nat)
    (initiatives initiatives' : list Initiative) :
  Permutation initiatives initiatives' ->
  simulate_future today reset_1 reset_2 df weeks_ahead initiatives
  = simulate_future today reset_1 reset_2 df weeks_ahead initiatives'.
Proof.
  intros HP. apply simulate_future_initiatives_ext. intros week base.
  rewrite !add_initiatives_sum. f_equal. now apply active_sum_perm.
Qed.

Lemma initiatives_order_irrelevant_witness :
  simulate_future 21 None None three_week_history 3
    [ one_week_clinic;
      {| name := "Locum A"; start := 0; change := 3; end_ := None |} ]
  = simulate_future 21 None None three_week_history 3
    [ {| name := "Locum A"; start := 0; change := 3; end_ := None |};
      one_week_clinic ].
Proof.
  apply initiatives_order_irrelevant. apply perm_swap.
Defined.

(** X13.  An initiative whose end date precedes its start date is never
    active: it is accepted, and the forecast is the same as without it. *)
Theorem inverted_window_ignored (today : Z) (reset_1 reset_2 : option Reset)
    (df : list Row) (weeks_ahead : nat) (before after : list Initiative)
    (item : Initiative) (e : Z) :
  end_ item = Some e -> e < start item ->
  (forall week, is_active item week = false) /\
  simulate_future today reset_1 reset_2 df weeks_ahead
    (before ++ item :: after)
  = simulate_future today reset_1 reset_2 df weeks_ahead (before ++ after).
Proof.
  intros He Hlt.
  assert (forall week, is_active item week = false) as Hoff.
  { intros week. unfold is_active. rewrite He.
    apply andb_false_iff.
    destruct (Z.leb_spec (start item) week); [right | now left].
    apply Z.leb_gt. lia. }
  split; [exact Hoff|].
  apply simulate_future_initiatives_ext. intros week base.
  rewrite !add_initiatives_sum, !filter_app. simpl. now rewrite Hoff.
Qed.

Lemma inverted_window_ignored_witness :
  simulate_future 21 None None three_week_history 3
    ([] ++ [ {| name := "Extra Clinic"; start := 35; change := 40;
                end_ := Some 28 |} ])
  = simulate_future 21 None None three_week_history 3 ([] ++ []).
Proof.
  apply (inverted_window_ignored 21 None None three_week_history 3 [] []
           {| name := "Extra Clinic"; start := 35; change := 40;
              end_ := Some 28 |} 28).
  - reflexivity.
  - simpl. lia.
Defined.





(** ** The export column and the initiative markers *)

Lemma append_empty_l (s1 s2 : string) :
  String.append s1 s2 = EmptyString -> s1 = EmptyString.
Proof. destruct s1; [reflexivity | discriminate]. Qed.

Lemma join_empty (sep : string) (l : list string) :
  Forall (fun x => x <> EmptyString) l ->
  join sep l = EmptyString -> l = [].
Proof.
  intros Hne. destruct l as [|x rest]; [reflexivity|].
  inversion Hne as [|? ? Hx _]; subst. simpl.
  destruct rest; intros E; [contradiction|].
  apply append_empty_l in E. contradiction.
Qed.

(** X15.  The "Initiatives_Applied" cell of a week is the empty string
    exactly when no initiative passes the window test at that week. *)
Theorem no_label_iff_none_active (initiatives : list Initiative) (week : Z) :
  get_active_initiatives initiatives week = EmptyString <->
  forall item, In item initiatives -> is_active item week = false.
Proof.
  unfold get_active_initiatives.
  rewrite <- (filter_nil_all (fun i => is_active i week)). split.
  - intros E. apply join_empty in E.
    + now apply map_eq_nil in E.
    + apply Forall_map, Forall_forall. intros item _ E'.
      destruct (name item); simpl in E'; discriminate.
  - intros ->. reflexivity.
Qed.

Lemma idxmin_spec (l : list Z) :
  l <> [] ->
  exists k, idxmin l = Some k /\ (k < length l)%nat /\
            (forall j, (j < length l)%nat -> nth k l 0 <= nth j l 0) /\
            (forall j, (j < k)%nat -> nth k l 0 < nth j l 0).
Proof.
  induction l as [|x rest IH]; [congruence|]. intros _.
  destruct rest as [|y rest'].
  - exists 0%nat. split; [reflexivity|]. split; [simpl; lia|]. split.
    + intros [|j] Hj; [simpl; lia | simpl in Hj; lia].
    + intros j Hj. lia.
  - destruct (IH ltac:(discriminate)) as (k & Hk & Hlen & Hmin & Hfirst).
    change (idxmin (x :: y :: rest')) with
      (match idxmin (y :: rest') with
       | Some k => if nth k (y :: rest') 0 <? x then Some (S k) else Some O
       | None => Some O
       end).
    rewrite Hk.
    destruct (Z.ltb_spec (nth k (y :: rest') 0) x) as [Hlt|Hge].
    + exists (S k). split; [reflexivity|]. split; [simpl in *; lia|].
      change (nth (S k) (x :: y :: rest') 0) with (nth k (y :: rest') 0).
      split.
      * intros [|j] Hj.
        -- change (nth 0 (x :: y :: rest') 0) with x. lia.
        -- change (nth (S j) (x :: y :: rest') 0) with (nth j (y :: rest') 0).
           apply Hmin. simpl in *. lia.
      * intros [|j] Hj.
        -- change (nth 0 (x :: y :: rest') 0) with x. lia.
        -- change (nth (S j) (x :: y :: rest') 0) with (nth j (y :: rest') 0).
           apply Hfirst. lia.
    + exists 0%nat. split; [reflexivity|]. split; [simpl; lia|].
      change (nth 0 (x :: y :: rest') 0) with x. split.
      * intros [|j] Hj.
        -- change (nth 0 (x :: y :: rest') 0) with x. lia.
        -- change (nth (S j) (x :: y :: rest') 0) with (nth j (y :: rest') 0).
           specialize (Hmin j ltac:(simpl in *; lia)). lia.
      * intros j Hj. lia.
Qed.

(** X16.  The marker of an initiative sits on a forecast row whose week is
    as close to the initiative's start as any (the earliest such row on a
    tie); when the start is itself a forecast week the marker is on it.  On
    an empty forecast the marker code raises. *)
Theorem initiative_marker_closest (future : list (Z * Z)) (item : Initiative) :
  (future = [] -> initiative_marker future item = inl KeyError) /\
  (future <> [] ->
   exists m,
     initiative_marker future item = inr m /\ In m future /\
     (forall r, In r future ->
        Z.abs (fst m - start item) <= Z.abs (fst r - start item)) /\
     (exists k, nth_error future k = Some m /\
        forall j r, (j < k)%nat -> nth_error future j = Some r ->
          Z.abs (fst m - start item) < Z.abs (fst r - start item)) /\
     ((exists r, In r future /\ fst r = start item) -> fst m = start item)).
Proof.
  split; [intros ->; reflexivity|]. intros Hne.
  unfold initiative_marker. destruct future as [|r0 rest]; [congruence|].
  set (future := r0 :: rest) in *.
  set (date_diff := map (fun r => Z.abs (fst r - start item)) future).
  assert (date_diff <> []) as Hdd by (unfold date_diff, future; discriminate).
  destruct (idxmin_spec date_diff Hdd) as (k & -> & Hk & Hmin & Hfirst).
  unfold date_diff in Hk. rewrite length_map in Hk.
  assert (forall j, (j < length future)%nat ->
            nth j date_diff 0
            = Z.abs (fst (nth j future (0, 0)) - start item)) as Hnth.
  { intros j Hj. unfold date_diff.
    now rewrite (nth_map_default _ future (0, 0)). }
  assert (forall r, In r future ->
            Z.abs (fst (nth k future (0, 0)) - start item)
            <= Z.abs (fst r - start item)) as Hclose.
  { intros r Hr. destruct (In_nth _ _ (0, 0) Hr) as (j & Hj & <-).
    rewrite <- !Hnth by assumption. apply Hmin.
    unfold date_diff. now rewrite length_map. }
  exists (nth k future (0, 0)). split; [reflexivity|].
  split; [now apply nth_In|]. split; [exact Hclose|]. split.
  - exists k. split; [now apply nth_error_nth'|].
    intros j r Hj Hr. specialize (Hfirst j Hj).
    rewrite !Hnth in Hfirst by lia.
    now rewrite (nth_error_nth _ _ (0, 0) Hr) in Hfirst.
  - intros (r & Hr & Heq). specialize (Hclose r Hr). lia.
Qed.

Lemma initiative_marker_closest_witness :
  exists m,
    initiative_marker [(21, 95); (28, 85); (35, 70)]
      {| name := "Extra Clinic"; start := 26; change := 5; end_ := None |}
    = inr m /\ In m [(21, 95); (28, 85); (35, 70)].
Proof.
  destruct (proj2 (initiative_marker_closest [(21, 95); (28, 85); (35, 70)]
                     {| name := "Extra Clinic"; start := 26; change := 5;
                        end_ := None |}) ltac:(discriminate))
    as (m & Hm & Hin & _).
  exists m. split; assumption.
Defined.

(** ** The reset blocks of the sidebar *)



(** ** Range of the estimates *)








(** ** Lengthening the horizon *)



(** ** One more locum event *)





(** ** Forecast and demand *)


